(** * add_files_to_project.py

    A shallow embedding of the script

    <<
    project_path = sys.argv[1]
    file_paths = sys.argv[2:]
    project = XcodeProject.load(project_path)
    for file_path in file_paths:
        project.add_file(file_path)
    project.save()
    >>

    The script runs in a state and exception monad over a world made of
    the file system (contents and writability of each path) and a log of
    the library calls made, each with the exception it raised if any.
    The [pbxproj] library is an external dependency: its project tree,
    parser, printer and [add_file] on the tree are section variables, and
    [XcodeProject.load] / [XcodeProject.save] follow the library's
    interface as the spec describes it (load reads the file at the given
    path and remembers that path; [save()] with no argument writes to the
    remembered path). *)

From Stdlib Require Import String List Lia.
Import ListNotations.


Definition path := string.

(** Exceptions the script can surface. *)
Inductive exn :=
| IndexError                 (* sys.argv[1] out of range *)
| LoadError                  (* manifest missing or not parseable *)
| SaveError                  (* destination not writable *)
| AddFileError (msg : string). (* anything add_file may raise *)

Inductive result (A : Type) :=
| Ok (a : A)
| Err (x : exn).
Arguments Ok {A} a.
Arguments Err {A} x.

(** The library calls the script makes, as recorded in the log. *)
Inductive event :=
| EvLoad (p : path)
| EvAddFile (p : path)
| EvSave (p : path).

Definition err_of {A} (r : result A) : option exn :=
  match r with Ok _ => None | Err x => Some x end.

(** A concrete library to run the script on: a manifest is a list of
    lines starting with a header, its tree is the list of file entries. *)
Module Demo.

Definition header : string := "// !$*UTF8*$!".

Definition parse (c : list string) : option (list string) :=
  match c with
  | h :: rest => if String.eqb h header then Some rest else None
  | [] => None
  end.

Definition unparse (t : list string) : list string := header :: t.

Definition add_file (t : list string) (q : path) : result (list string) :=
  Ok (t ++ [q])%list.

(** A stricter variant that rejects an empty path. *)
Definition add_file_strict (t : list string) (q : path) : result (list string) :=
  if String.eqb q "" then Err (AddFileError "empty path") else Ok (t ++ [q])%list.

Definition fs0 : path -> option (list string) :=
  fun q => if String.eqb q "proj.pbxproj" then Some [header] else None.

Definition all_writable : path -> bool := fun _ => true.

(** A file system with one more file beside the manifest. *)
Definition fs_other : path -> option (list string) :=
  fun q => if String.eqb q "notes.txt" then Some ["x"%string] else fs0 q.

Definition read_only_manifest : path -> bool :=
  fun q => negb (String.eqb q "proj.pbxproj").

End Demo.

(** The per-path behaviour of pbxproj's [XcodeProject.add_file] with
    the default arguments the script uses ([tree='SOURCE_ROOT'],
    [force=True]), on a tree seen as the list of registered paths:
    - the path is resolved first: an absolute path that does not exist
      makes the call return [None] without registering anything; an
      existing absolute path is registered rewritten relative to the
      source root ([rel]);
    - the file type is then looked up by extension: an extension missing
      from the library's table raises ValueError;
    - otherwise one new reference is registered; with [force=True] no
      duplicate check is made.
    [file_types] lists a few entries of the library's table. *)
Module Pbx.

Definition file_types : list string := [".c"; ".h"; ".m"; ".swift"; ".plist"; ".png"]%string.

Definition ends_with (e q : string) : bool :=
  let n := String.length q in
  let m := String.length e in
  Nat.leb m n && String.eqb (substring (n - m) m q) e.

Definition known_extension (q : path) : bool :=
  existsb (fun e => ends_with e q) file_types.

Definition register (t : list string) (r : path) : result (list string) :=
  if known_extension r then Ok (t ++ [r])%list
  else Err (AddFileError "ValueError: Unknown file extension").

Definition add_file (exists_abs : path -> bool) (rel : path -> path)
    (t : list string) (q : path) : result (list string) :=
  if String.prefix "/" q then
    if exists_abs q then register t (rel q) else Ok t
  else register t q.

(** On a disk where no absolute path exists. *)
Definition add_file_no_abs : list string -> path -> result (list string) :=
  add_file (fun _ => false) (fun q => q).

End Pbx.

Section Script.

(** File contents, the library's parsed project tree, its parser and
    printer, and the tree-level effect of [add_file]. *)
Variable Content : Type.
Variable Objects : Type.
Variable parse : Content -> option Objects.
Variable unparse : Objects -> Content.
Variable add_file_obj : Objects -> path -> result Objects.

Record world := mkWorld {
  files : path -> option Content;
  writable : path -> bool;
  log : list (event * option exn)
}.

Definition fs_update (fs : path -> option Content) (p : path) (c : Content)
  : path -> option Content :=
  fun q => if String.eqb q p then Some c else fs q.

(** State and exception monad. *)
Definition M (A : Type) := world -> result A * world.

Definition ret {A} (a : A) : M A := fun w => (Ok a, w).

Definition bind {A B} (m : M A) (k : A -> M B) : M B :=
  fun w => match m w with
           | (Ok a, w') => k a w'
           | (Err x, w') => (Err x, w')
           end.

Definition raise {A} (x : exn) : M A := fun w => (Err x, w).

Local Notation "x <- m ;; k" := (bind m (fun x => k))
  (at level 61, m at next level, right associativity).

(** Run a library call and log it with its outcome. *)
Definition call {A} (e : event) (body : M A) : M A :=
  fun w => let '(r, w') := body w in
           (r, mkWorld (files w') (writable w') (log w' ++ [(e, err_of r)])).

(** [sys.argv[i]] *)
Definition argv_get (argv : list string) (i : nat) : M string :=
  match nth_error argv i with
  | Some s => ret s
  | None => raise IndexError
  end.

(** An [XcodeProject] object: the parsed tree and the path it was loaded
    from. *)
Record XcodeProject := mkProject {
  objects : Objects;
  pbxproj_path : path
}.

(** [XcodeProject.load(path)] *)
Definition XcodeProject_load (p : path) : M XcodeProject :=
  call (EvLoad p) (fun w =>
    match files w p with
    | None => (Err LoadError, w)
    | Some c =>
        match parse c with
        | None => (Err LoadError, w)
        | Some t => (Ok (mkProject t p), w)
        end
    end).

(** [project.add_file(file_path)]: mutates the project in place. *)
Definition XcodeProject_add_file (pr : XcodeProject) (q : path) : M XcodeProject :=
  call (EvAddFile q) (fun w =>
    match add_file_obj (objects pr) q with
    | Ok t => (Ok (mkProject t (pbxproj_path pr)), w)
    | Err x => (Err x, w)
    end).

(** [project.save(path=None)]: the destination defaults to the path the
    project was loaded from; the whole file is overwritten. Two outcomes
    are modelled: opening the destination fails (not writable, the file
    is untouched) or the printed tree is written. A failure while writing
    after the truncating open (an encoding error, a full disk) is not
    modelled. *)
Definition XcodeProject_save (pr : XcodeProject) (dest : option path) : M unit :=
  let d := match dest with Some q => q | None => pbxproj_path pr end in
  call (EvSave d) (fun w =>
    if writable w d
    then (Ok tt, mkWorld (fs_update (files w) d (unparse (objects pr)))
                         (writable w) (log w))
    else (Err SaveError, w)).

(** [for file_path in file_paths: project.add_file(file_path)] *)
Fixpoint add_files (pr : XcodeProject) (file_paths : list path) : M XcodeProject :=
  match file_paths with
  | [] => ret pr
  | q :: rest => pr' <- XcodeProject_add_file pr q ;; add_files pr' rest
  end.

(** The module body. *)
Definition main (argv : list string) : M unit :=
  project_path <- argv_get argv 1 ;;
  let file_paths := skipn 2 argv in
  project <- XcodeProject_load project_path ;;
  project <- add_files project file_paths ;;
  XcodeProject_save project None.

(** The interpreter starts with an empty log; an uncaught exception ends
    the process with status 1. *)
Definition initial (fs : path -> option Content) (wr : path -> bool) : world :=
  mkWorld fs wr [].

Definition run (argv : list string) (fs : path -> option Content) (wr : path -> bool)
  : result unit * world :=
  main argv (initial fs wr).

Definition exit_status (r : result unit) : nat :=
  match r with Ok _ => 0 | Err _ => 1 end.

(** Auxiliary notions used to state the properties. *)
Definition ok_events (es : list event) : list (event * option exn) :=
  map (fun e => (e, None)) es.

(** The calls of a complete run: one load, one add per path, one save. *)
Definition calls (p : path) (fps : list path) : list event :=
  EvLoad p :: map EvAddFile fps ++ [EvSave p].

(** The manifest tree stored at [p], if any. *)
Definition manifest_at (w : world) (p : path) : option Objects :=
  match files w p with
  | Some c => parse c
  | None => None
  end.

(** Tree-level effect of the loop, with the log entries it produces. *)
Fixpoint add_all (t : Objects) (fps : list path)
  : result Objects * list (event * option exn) :=
  match fps with
  | [] => (Ok t, [])
  | q :: rest =>
      match add_file_obj t q with
      | Ok t' => let '(r, l) := add_all t' rest in (r, (EvAddFile q, None) :: l)
      | Err x => (Err x, [(EvAddFile q, Some x)])
      end
  end.

(** ** Closed forms of the script's phases *)

Lemma add_files_closed (fps : list path) :
  forall (pr : XcodeProject) (w : world),
    add_files pr fps w =
    (match fst (add_all (objects pr) fps) with
     | Ok t => Ok (mkProject t (pbxproj_path pr))
     | Err x => Err x
     end,
     mkWorld (files w) (writable w) (log w ++ snd (add_all (objects pr) fps))).
Proof.
  induction fps as [|q rest IH]; intros [t d] [fs wr l]; simpl.
  - rewrite app_nil_r. reflexivity.
  - unfold bind, XcodeProject_add_file, call; simpl.
    destruct (add_file_obj t q) as [t'|x] eqn:Ha; simpl.
    + rewrite IH; simpl.
      destruct (add_all t' rest) as [r l'] eqn:Hr; simpl.
      rewrite <- app_assoc. reflexivity.
    + reflexivity.
Qed.

(** The whole run once the manifest path is present. *)
Lemma main_closed (prog p : string) (fps : list path) fs wr l :
  main (prog :: p :: fps) (mkWorld fs wr l) =
  match fs p with
  | None => (Err LoadError, mkWorld fs wr (l ++ [(EvLoad p, Some LoadError)]))
  | Some c =>
    match parse c with
    | None => (Err LoadError, mkWorld fs wr (l ++ [(EvLoad p, Some LoadError)]))
    | Some t =>
      let '(r, l') := add_all t fps in
      match r with
      | Err x => (Err x, mkWorld fs wr (l ++ [(EvLoad p, None)] ++ l'))
      | Ok t' =>
        if wr p
        then (Ok tt, mkWorld (fs_update fs p (unparse t')) wr
                             (l ++ [(EvLoad p, None)] ++ l' ++ [(EvSave p, None)]))
        else (Err SaveError, mkWorld fs wr
                             (l ++ [(EvLoad p, None)] ++ l' ++ [(EvSave p, Some SaveError)]))
      end
    end
  end.
Proof.
  unfold main, argv_get, bind, ret; simpl.
  unfold XcodeProject_load, call; simpl.
  destruct (fs p) as [c|]; [|reflexivity].
  destruct (parse c) as [t|]; [|reflexivity]; simpl.
  rewrite add_files_closed; simpl.
  destruct (add_all t fps) as [[t'|x] l'] eqn:Ha; simpl.
  - unfold XcodeProject_save, call; simpl.
    destruct (wr p); simpl; rewrite <- !app_assoc; reflexivity.
  - rewrite <- app_assoc. reflexivity.
Qed.

Lemma main_no_path (argv : list string) (w : world) :
  length argv < 2 -> main argv w = (Err IndexError, w).
Proof.
  intros H. destruct argv as [|a [|b rest]]; simpl in H; try lia; reflexivity.
Qed.

(** The log of the loop: every call before the failing one returned. *)
Lemma add_all_log (t : Objects) (fps : list path) :
  match add_all t fps with
  | (Ok _, l) => l = ok_events (map EvAddFile fps)
  | (Err x, l) => exists k, k < length fps /\
      l = ok_events (map EvAddFile (firstn k fps)) ++ [(EvAddFile (nth k fps ""%string), Some x)]
  end.
Proof.
  revert t; induction fps as [|q rest IH]; intros t; simpl; [reflexivity|].
  destruct (add_file_obj t q) as [t'|x].
  - specialize (IH t'). destruct (add_all t' rest) as [[t''|x] l]; simpl.
    + subst l. reflexivity.
    + destruct IH as [k [Hk ->]]. exists (S k). split; [lia|reflexivity].
  - exists 0. split; [lia|reflexivity].
Qed.

Lemma calls_length (p : path) (fps : list path) :
  length (calls p fps) = S (S (length fps)).
Proof.
  unfold calls; simpl. rewrite length_app, length_map; simpl. lia.
Qed.

Lemma calls_firstn_adds (p : path) (fps : list path) (k : nat) :
  k <= length fps ->
  firstn (S k) (calls p fps) = EvLoad p :: map EvAddFile (firstn k fps).
Proof.
  intros Hk. unfold calls; cbn [firstn]. f_equal.
  rewrite firstn_app, firstn_map, length_map.
  replace (k - length fps) with 0 by lia.
  simpl. apply app_nil_r.
Qed.

Lemma calls_nth_add (p : path) (fps : list path) (k : nat) (d : event) :
  k < length fps -> nth (S k) (calls p fps) d = EvAddFile (nth k fps ""%string).
Proof.
  unfold calls; simpl.
  revert k; induction fps as [|q rest IH]; intros [|k] Hk; simpl in *;
    try reflexivity; try lia.
  apply IH. lia.
Qed.

Lemma calls_nth_save (p : path) (fps : list path) (d : event) :
  nth (S (length fps)) (calls p fps) d = EvSave p.
Proof.
  unfold calls; simpl. induction fps as [|q rest IH]; simpl; auto.
Qed.

Lemma calls_prefix_no_save (p : path) (fps : list path) (k : nat) (d : path) :
  k < length (calls p fps) -> ~ In (EvSave d) (firstn k (calls p fps)).
Proof.
  rewrite calls_length. intros Hk.
  destruct k as [|k]; [simpl; tauto|].
  rewrite calls_firstn_adds by lia.
  intros [H|H]; [discriminate|].
  apply in_map_iff in H. destruct H as [y [H _]]. discriminate.
Qed.

Lemma ok_events_app (l1 l2 : list event) :
  ok_events (l1 ++ l2) = ok_events l1 ++ ok_events l2.
Proof. apply map_app. Qed.

Lemma ok_events_no_raise (es : list event) (e : event) (x : exn) :
  ~ In (e, Some x) (ok_events es).
Proof.
  unfold ok_events. intros H. apply in_map_iff in H.
  destruct H as [y [H _]]. discriminate.
Qed.

(** Shape of every run that has a manifest path: either every call
    returned, in the order load, adds, save, and the manifest path was
    overwritten; or the calls made are a prefix of that sequence followed
    by the one call that raised, and no file was written. *)
Lemma run_shape (prog p : string) (fps : list path) fs wr :
  let '(r, w') := run (prog :: p :: fps) fs wr in
  writable w' = wr /\
  ((r = Ok tt /\ log w' = ok_events (calls p fps) /\
    exists t', files w' = fs_update fs p (unparse t')) \/
   (exists k x, r = Err x /\ files w' = fs /\ k < length (calls p fps) /\
      log w' = ok_events (firstn k (calls p fps))
               ++ [(nth k (calls p fps) (EvLoad p), Some x)])).
Proof.
  unfold run, initial. rewrite main_closed.
  destruct (fs p) as [c|].
  2:{ split; [reflexivity|right]. exists 0, LoadError.
      rewrite calls_length. repeat split; lia. }
  destruct (parse c) as [t|].
  2:{ split; [reflexivity|right]. exists 0, LoadError.
      rewrite calls_length. repeat split; lia. }
  pose proof (add_all_log t fps) as Hl.
  destruct (add_all t fps) as [[t'|x] l] eqn:Ha.
  - subst l. destruct (wr p); cbn [fst snd writable files log app]; split; try reflexivity.
    + left. repeat split.
      * unfold calls. cbn [ok_events map app]. rewrite ok_events_app. reflexivity.
      * exists t'. reflexivity.
    + right. exists (S (length fps)), SaveError.
      rewrite calls_length, calls_nth_save, calls_firstn_adds by lia.
      rewrite firstn_all. repeat split; try lia.
  - destruct Hl as [k [Hk ->]]. cbn [fst snd writable files log app].
    split; [reflexivity|right].
    exists (S k), x.
    rewrite calls_length, calls_nth_add, calls_firstn_adds by lia.
    repeat split; lia.
Qed.

(** ** Control flow *)

(** C7: every run with a manifest path makes its library calls in the
    fixed order: one load, then one add_file per input path in input
    order, then one save. A call that raises ends the run: the log is a
    prefix of that sequence in which every call returned, followed by the
    single call that raised; nothing is retried, and the save is only
    reached after the load and every add returned. *)
Theorem main_phase_order (prog p : string) (fps : list path) fs wr :
  let '(r, w') := run (prog :: p :: fps) fs wr in
  (r = Ok tt /\ log w' = ok_events (calls p fps)) \/
  (exists k x, r = Err x /\ k < length (calls p fps) /\
     log w' = ok_events (firstn k (calls p fps))
              ++ [(nth k (calls p fps) (EvLoad p), Some x)]).
Proof.
  pose proof (run_shape prog p fps fs wr) as H.
  destruct (run (prog :: p :: fps) fs wr) as [r w'].
  destruct H as [_ [[Hr [Hl _]]|[k [x [Hr [_ [Hk Hl]]]]]]].
  - left. split; assumption.
  - right. exists k, x. repeat split; assumption.
Qed.

(** C6: the exit status is 0 exactly when the manifest path is present
    and every call of the load/add/save sequence returned; otherwise it
    is non-zero and the exception surfaced is the one raised by the last
    call made (or the IndexError of reading [sys.argv[1]]), uncaught. *)
Theorem exit_status_spec (argv : list string) fs wr :
  let '(r, w') := run argv fs wr in
  (exit_status r = 0 <->
     exists p, nth_error argv 1 = Some p /\
               log w' = ok_events (calls p (skipn 2 argv))) /\
  (forall x, r = Err x ->
     exit_status r <> 0 /\
     ((x = IndexError /\ log w' = []) \/
      exists e pre, log w' = pre ++ [(e, Some x)])).
Proof.
  destruct argv as [|prog [|p fps]].
  1,2: unfold run; rewrite main_no_path by (simpl; lia); simpl;
       split; [split; [discriminate|intros [p [H _]]; discriminate]
              |intros x Hx; injection Hx as <-; split; [discriminate|left; auto]].
  pose proof (run_shape prog p fps fs wr) as H.
  destruct (run (prog :: p :: fps) fs wr) as [r w'].
  destruct H as [_ [[Hr [Hl _]]|[k [x [Hr [_ [Hk Hl]]]]]]]; subst r.
  - split.
    + split; [intros _; exists p; split; [reflexivity|exact Hl]|reflexivity].
    + intros x Hx; discriminate.
  - split.
    + split; [discriminate|].
      intros [p' [Hp Hl']]. exfalso. cbn [nth_error skipn] in Hp, Hl'.
      injection Hp as <-. rewrite Hl' in Hl.
      apply (ok_events_no_raise (calls p fps) (nth k (calls p fps) (EvLoad p)) x).
      rewrite Hl. apply in_or_app. right. left. reflexivity.
    + intros x' Hx. injection Hx as <-. split; [discriminate|].
      right. eexists _, _. exact Hl.
Qed.

(** C8: with no argument at all, reading [sys.argv[1]] raises an
    IndexError (not a LoadError) before any library call: nothing is
    loaded, the log stays empty and the file system is untouched. *)
Theorem no_arguments_index_error (prog : string) fs wr :
  run [prog] fs wr = (Err IndexError, initial fs wr) /\ IndexError <> LoadError.
Proof.
  split; [|discriminate].
  unfold run. apply main_no_path. simpl. lia.
Qed.

(** C3: when the manifest path names no file, or a file the parser
    rejects, the run ends with LoadError right after the load call and
    the file system is left exactly as it was. *)
Theorem load_failure_writes_nothing (prog p : string) (fps : list path) fs wr
  (Hbad : match fs p with None => True | Some c => parse c = None end) :
  run (prog :: p :: fps) fs wr
  = (Err LoadError, mkWorld fs wr [(EvLoad p, Some LoadError)]).
Proof.
  unfold run, initial. rewrite main_closed.
  destruct (fs p) as [c|]; [rewrite Hbad|]; reflexivity.
Qed.

(** C9: if an add_file call raises, the run ends with that exception,
    save is never called, and the file system is unchanged. *)
Theorem add_failure_before_save (argv : list string) fs wr (q : path) (x : exn)
  (Hfail : In (EvAddFile q, Some x) (log (snd (run argv fs wr)))) :
  fst (run argv fs wr) = Err x /\
  files (snd (run argv fs wr)) = fs /\
  (forall d o, ~ In (EvSave d, o) (log (snd (run argv fs wr)))).
Proof.
  destruct argv as [|prog [|p fps]].
  1,2: unfold run in *; rewrite main_no_path in * by (simpl; lia);
       simpl in Hfail; contradiction.
  pose proof (run_shape prog p fps fs wr) as H.
  destruct (run (prog :: p :: fps) fs wr) as [r w']. cbn [fst snd] in *.
  destruct H as [_ [[Hr [Hl _]]|[k [x' [Hr [Hf [Hk Hl]]]]]]].
  - rewrite Hl in Hfail. exfalso. eapply ok_events_no_raise; exact Hfail.
  - rewrite Hl in Hfail. apply in_app_or in Hfail.
    destruct Hfail as [Hin|[Hin|[]]].
    + exfalso. eapply ok_events_no_raise; exact Hin.
    + injection Hin as Hn <-. subst r. repeat split; [assumption|].
      intros d o Hs. rewrite Hl in Hs. apply in_app_or in Hs.
      destruct Hs as [Hs|[Hs|[]]].
      * unfold ok_events in Hs. apply in_map_iff in Hs.
        destruct Hs as [e [He Hin]]. injection He as -> _.
        eapply calls_prefix_no_save; eassumption.
      * injection Hs as Hs _. congruence.
Qed.

(** ** Effect on the manifest *)

Lemma fs_update_same (fs : path -> option Content) (p : path) (c : Content) :
  fs_update fs p c p = Some c.
Proof. unfold fs_update. rewrite String.eqb_refl. reflexivity. Qed.

Lemma fs_update_other (fs : path -> option Content) (p q : path) (c : Content) :
  q <> p -> fs_update fs p c q = fs q.
Proof.
  intros H. unfold fs_update. destruct (String.eqb_spec q p); congruence.
Qed.

(** A successful run with a valid manifest writes the printed tree the
    loop produced at the manifest path, and nothing else. *)
Lemma run_success (prog p : string) (fps : list path) c t t' fs wr :
  fs p = Some c -> parse c = Some t -> fst (add_all t fps) = Ok t' -> wr p = true ->
  run (prog :: p :: fps) fs wr =
  (Ok tt, mkWorld (fs_update fs p (unparse t')) wr
                  (ok_events (calls p fps))).
Proof.
  intros Hc Ht Ha Hw. unfold run, initial. rewrite main_closed, Hc, Ht.
  pose proof (add_all_log t fps) as Hl.
  destruct (add_all t fps) as [r l]. cbn [fst] in Ha. subst r. subst l.
  rewrite Hw. unfold calls. cbn [ok_events map app]. rewrite ok_events_app.
  reflexivity.
Qed.

Section Entries.

(** The file references of a manifest tree. *)
Variable entries : Objects -> list path.





End Entries.

(** C2: with a manifest path and no file path, a valid manifest is
    loaded and saved and nothing else is called; the manifest written
    back is the printed form of the tree that was loaded, so it reads
    back as the same manifest, and every other file is untouched. *)
Theorem no_files_roundtrip (prog p : string) c t fs wr
  (Hc : fs p = Some c) (Ht : parse c = Some t) (Hw : wr p = true)
  (Hrt : forall t, parse (unparse t) = Some t) :
  let '(r, w') := run [prog; p] fs wr in
  r = Ok tt /\ log w' = ok_events [EvLoad p; EvSave p] /\
  files w' p = Some (unparse t) /\ manifest_at w' p = Some t /\
  (forall q, q <> p -> files w' q = fs q).
Proof.
  rewrite (run_success prog p (@nil string) c t t fs wr Hc Ht eq_refl Hw).
  unfold manifest_at. cbn [files log]. rewrite fs_update_same, Hrt.
  repeat split; try reflexivity.
  intros q Hq. apply fs_update_other. exact Hq.
Qed.

(** C5: once the manifest is loaded and every add has returned, the
    save call targets the path the manifest was loaded from; it raises
    SaveError exactly when that path is not writable, in which case no
    file changes; otherwise that file alone is replaced by the printed
    mutated tree, every other path keeping its content. *)
Theorem save_phase (prog p : string) (fps : list path) c t t' fs wr
  (Hc : fs p = Some c) (Ht : parse c = Some t) (Ha : fst (add_all t fps) = Ok t') :
  let '(r, w') := run (prog :: p :: fps) fs wr in
  (r = Err SaveError <-> wr p = false) /\
  In (EvSave p, err_of r) (log w') /\
  (r = Ok tt -> files w' = fs_update fs p (unparse t')) /\
  (r = Err SaveError -> files w' = fs).
Proof.
  destruct (wr p) eqn:Hw.
  - rewrite (run_success prog p fps c t t' fs wr Hc Ht Ha Hw).
    cbn [files log err_of]. repeat split; try discriminate; auto.
    unfold ok_events. apply in_map_iff. exists (EvSave p). split; [reflexivity|].
    unfold calls. right. apply in_or_app. right. left. reflexivity.
  - unfold run, initial. rewrite main_closed, Hc, Ht.
    destruct (add_all t fps) as [r l]. cbn [fst] in Ha. subst r.
    rewrite Hw. cbn [files log err_of].
    repeat split; try discriminate; auto.
    rewrite !app_assoc. apply in_or_app. right. left. reflexivity.
Qed.

(** C10: two runs on the same arguments, whose file systems hold the
    same content at the manifest path, that both succeed write the same
    manifest and make the same calls. *)
Theorem run_deterministic (argv : list string) (p : path) fs1 fs2 wr1 wr2
  (Hp : nth_error argv 1 = Some p) (Hsame : fs1 p = fs2 p)
  (Hok1 : fst (run argv fs1 wr1) = Ok tt) (Hok2 : fst (run argv fs2 wr2) = Ok tt) :
  files (snd (run argv fs1 wr1)) p = files (snd (run argv fs2 wr2)) p /\
  log (snd (run argv fs1 wr1)) = log (snd (run argv fs2 wr2)).
Proof.
  destruct argv as [|prog [|p' fps]]; try discriminate.
  cbn [nth_error] in Hp. injection Hp as ->.
  revert Hok1 Hok2. unfold run, initial. rewrite !main_closed, <- Hsame.
  destruct (fs1 p) as [c|]; [|discriminate].
  destruct (parse c) as [t|]; [|discriminate].
  destruct (add_all t fps) as [[t'|x] l]; [|discriminate].
  destruct (wr1 p), (wr2 p); try discriminate.
  intros _ _. cbn [snd files log]. rewrite !fs_update_same. split; reflexivity.
Qed.

(** ** Further properties of the script *)

(** Only the manifest path can change: every other path keeps its
    content, whatever the outcome of the run. *)
Theorem run_frame (argv : list string) fs wr (q : path)
  (Hq : nth_error argv 1 <> Some q) :
  files (snd (run argv fs wr)) q = fs q.
Proof.
  destruct argv as [|prog [|p fps]].
  1,2: unfold run; rewrite main_no_path by (simpl; lia); reflexivity.
  cbn [nth_error] in Hq.
  pose proof (run_shape prog p fps fs wr) as H.
  destruct (run (prog :: p :: fps) fs wr) as [r w']. cbn [snd].
  destruct H as [_ [[_ [_ [t' ->]]]|[k [x [_ [-> _]]]]]]; [|reflexivity].
  apply fs_update_other. intros ->. apply Hq. reflexivity.
Qed.

(** The script name [sys.argv[0]] never influences the run. *)
Theorem run_ignores_argv0 (a b : string) (rest : list string) fs wr :
  run (a :: rest) fs wr = run (b :: rest) fs wr.
Proof.
  destruct rest as [|p fps].
  - unfold run. rewrite !main_no_path by (simpl; lia). reflexivity.
  - unfold run, initial. rewrite !main_closed. reflexivity.
Qed.

(** The loop over a concatenation is the loop over the first part
    followed by the loop over the second, on the project it left. *)
Theorem add_files_app (fps1 fps2 : list path) :
  forall (pr : XcodeProject) (w : world),
    add_files pr (fps1 ++ fps2) w
    = bind (add_files pr fps1) (fun pr' => add_files pr' fps2) w.
Proof.
  induction fps1 as [|q rest IH]; intros pr w; [reflexivity|].
  cbn [app add_files]. unfold bind at 1 3, XcodeProject_add_file, call.
  destruct (add_file_obj (objects pr) q) as [t|x]; [|reflexivity].
  apply IH.
Qed.

End Script.

Arguments mkWorld {Content}.
Arguments files {Content}.
Arguments writable {Content}.
Arguments log {Content}.
Arguments fs_update {Content}.
Arguments main {Content Objects}.
Arguments run {Content Objects}.
Arguments initial {Content}.
Arguments manifest_at {Content Objects}.
Arguments add_all {Objects}.

(** ** Runs on the concrete library *)

Module DemoRuns.
Import Demo.

Definition demo_run (argv : list string) :=
  run parse unparse add_file argv fs0 all_writable.

Definition manifest_lines (argv : list string) : option (list string) :=
  manifest_at parse (snd (demo_run argv)) "proj.pbxproj"%string.

(** The spec's example: an empty manifest and two sources. *)
Example two_sources :
  manifest_lines ["add.py"; "proj.pbxproj"; "src/a.c"; "src/b.c"]%string
  = Some ["src/a.c"; "src/b.c"]%string.
Proof. reflexivity. Qed.

Example two_sources_status :
  exit_status (fst (demo_run ["add.py"; "proj.pbxproj"; "src/a.c"; "src/b.c"]%string)) = 0.
Proof. reflexivity. Qed.

Example missing_manifest :
  fst (demo_run ["add.py"; "other.pbxproj"; "src/a.c"]%string) = Err LoadError.
Proof. reflexivity. Qed.

Example no_argument :
  fst (demo_run ["add.py"]%string) = Err IndexError.
Proof. reflexivity. Qed.

(** With the library's add_file, an unknown extension raises part-way
    and nothing is saved. *)
Example unknown_extension :
  run Demo.parse Demo.unparse Pbx.add_file_no_abs
      ["add.py"; "proj.pbxproj"; "src/a.c"; "notes.xyz"]%string fs0 all_writable
  = (Err (AddFileError "ValueError: Unknown file extension"),
     mkWorld fs0 all_writable
       [(EvLoad "proj.pbxproj", None); (EvAddFile "src/a.c", None);
        (EvAddFile "notes.xyz", Some (AddFileError "ValueError: Unknown file extension"))]%string).
Proof. reflexivity. Qed.

End DemoRuns.

(** ** Witnesses *)

Local Open Scope string_scope.



Lemma no_files_roundtrip_witness :
  let '(r, w') := run Demo.parse Demo.unparse Demo.add_file
                      ["add.py"; "proj.pbxproj"]%string Demo.fs0 Demo.all_writable in
  r = Ok tt /\ log w' = ok_events [EvLoad "proj.pbxproj"; EvSave "proj.pbxproj"]%string /\
  files w' "proj.pbxproj"%string = Some (Demo.unparse []) /\
  manifest_at Demo.parse w' "proj.pbxproj"%string = Some [] /\
  (forall q, q <> "proj.pbxproj"%string -> files w' q = Demo.fs0 q).
Proof.
  apply (no_files_roundtrip (list string) (list string) Demo.parse Demo.unparse
           Demo.add_file "add.py" "proj.pbxproj" [Demo.header] [] Demo.fs0 Demo.all_writable).
  - reflexivity.
  - reflexivity.
  - reflexivity.
  - intros t; reflexivity.
Defined.

Lemma load_failure_writes_nothing_witness :
  run Demo.parse Demo.unparse Demo.add_file
      ["add.py"; "missing.pbxproj"; "src/a.c"]%string Demo.fs0 Demo.all_writable
  = (Err LoadError, mkWorld Demo.fs0 Demo.all_writable
                      [(EvLoad "missing.pbxproj"%string, Some LoadError)]).
Proof.
  apply (load_failure_writes_nothing (list string) (list string) Demo.parse Demo.unparse
           Demo.add_file "add.py" "missing.pbxproj" ["src/a.c"] Demo.fs0 Demo.all_writable).
  simpl. exact I.
Defined.



Lemma save_phase_witness :
  let '(r, w') := run Demo.parse Demo.unparse Demo.add_file
                      ["add.py"; "proj.pbxproj"; "src/a.c"] Demo.fs0
                      Demo.read_only_manifest in
  (r = Err SaveError <-> Demo.read_only_manifest "proj.pbxproj" = false) /\
  In (EvSave "proj.pbxproj", err_of r) (log w') /\
  (r = Ok tt -> files w' = fs_update Demo.fs0 "proj.pbxproj" (Demo.unparse ["src/a.c"])) /\
  (r = Err SaveError -> files w' = Demo.fs0).
Proof.
  refine (save_phase (list string) (list string) Demo.parse Demo.unparse Demo.add_file
            "add.py" "proj.pbxproj" ["src/a.c"] [Demo.header] [] ["src/a.c"] Demo.fs0
            Demo.read_only_manifest _ _ _).
  - reflexivity.
  - reflexivity.
  - reflexivity.
Defined.

Lemma add_failure_before_save_witness :
  let argv := ["add.py"; "proj.pbxproj"; "a.c"; ""; "b.c"] in
  fst (run Demo.parse Demo.unparse Demo.add_file_strict argv Demo.fs0 Demo.all_writable)
  = Err (AddFileError "empty path") /\
  files (snd (run Demo.parse Demo.unparse Demo.add_file_strict argv Demo.fs0 Demo.all_writable))
  = Demo.fs0 /\
  (forall d o, ~ In (EvSave d, o)
     (log (snd (run Demo.parse Demo.unparse Demo.add_file_strict argv Demo.fs0 Demo.all_writable)))).
Proof.
  apply (add_failure_before_save (list string) (list string) Demo.parse Demo.unparse
           Demo.add_file_strict ["add.py"; "proj.pbxproj"; "a.c"; ""; "b.c"]
           Demo.fs0 Demo.all_writable "" (AddFileError "empty path")).
  vm_compute. right. right. left. reflexivity.
Defined.

Lemma run_deterministic_witness :
  let argv := ["add.py"; "proj.pbxproj"; "src/a.c"] in
  files (snd (run Demo.parse Demo.unparse Demo.add_file argv Demo.fs0 Demo.all_writable))
        "proj.pbxproj"
  = files (snd (run Demo.parse Demo.unparse Demo.add_file argv Demo.fs_other
                    (fun q => String.eqb q "proj.pbxproj"))) "proj.pbxproj" /\
  log (snd (run Demo.parse Demo.unparse Demo.add_file argv Demo.fs0 Demo.all_writable))
  = log (snd (run Demo.parse Demo.unparse Demo.add_file argv Demo.fs_other
                  (fun q => String.eqb q "proj.pbxproj"))).
Proof.
  apply (run_deterministic (list string) (list string) Demo.parse Demo.unparse
           Demo.add_file ["add.py"; "proj.pbxproj"; "src/a.c"] "proj.pbxproj"
           Demo.fs0 Demo.fs_other Demo.all_writable (fun q => String.eqb q "proj.pbxproj")).
  - reflexivity.
  - reflexivity.
  - reflexivity.
  - reflexivity.
Defined.

Lemma run_frame_witness :
  files (snd (run Demo.parse Demo.unparse Demo.add_file
                  ["add.py"; "proj.pbxproj"; "src/a.c"] Demo.fs_other Demo.all_writable))
        "notes.txt"
  = Demo.fs_other "notes.txt".
Proof.
  apply (run_frame (list string) (list string) Demo.parse Demo.unparse Demo.add_file
           ["add.py"; "proj.pbxproj"; "src/a.c"] Demo.fs_other Demo.all_writable "notes.txt").
  discriminate.
Defined.

